(** * SQLMesh macros of blockchain-data: surrogate keys and star expansion

    A shallow embedding of the two macros under [sqlmesh/macros]:

    - [generate_surrogate_key__sha_256] ([generate_surrogate_key.py]),
    - [star_v2] ([star_v2.py]),

    followed by the properties the specification states about them
    (the specification calls them SurrogateKeyBuilder and StarExpander).

    Both macros build sqlglot expression trees.  The node classes of
    sqlglot are the constructors of [Expr]; its builder functions
    ([exp.func], [exp.cast], [exp.column], [Expression.as_],
    [exp.Literal.string], [exp.DataType.build]) are functions on [Expr]
    that do what the builders do on the nodes the macros give them: a
    builder that raises returns an exception here. *)

From stdpp Require Import base strings list gmap.

#[local] Set Warnings "-register-all".

(** ** Expression nodes *)

(** [exp.DataType]: the declared SQL type of a column.  [UNKNOWN] is
    [exp.DataType.Type.UNKNOWN], which the schema reports for a column
    whose type it cannot tell. *)
Inductive DataType : Type :=
| TEXT
| INT
| UNKNOWN
| OtherType (kind : string).

#[global] Instance DataType_eq_dec : EqDecision DataType.
Proof. solve_decision. Defined.

(** [c.upper()] on a character, and [s.upper()] on a string. *)
Definition upper_ascii (c : Ascii.ascii) : Ascii.ascii :=
  let n := Ascii.nat_of_ascii c in
  if bool_decide (97 ≤ n ≤ 122) then Ascii.ascii_of_nat (n - 32) else c.

Fixpoint upper (s : string) : string :=
  match s with
  | EmptyString => EmptyString
  | String c s' => String (upper_ascii c) (upper s')
  end.

(** [exp.DataType.build]: from the name of a type, in any case, to the
    type; [OtherType] stands for the types the macros do not tell from
    each other. *)
Definition DataType_build (dtype : string) : DataType :=
  let kind := upper dtype in
  if decide (kind = "TEXT") then TEXT
  else if decide (kind = "STRING") then TEXT
  else if decide (kind = "INT") then INT
  else if decide (kind = "UNKNOWN") then UNKNOWN
  else OtherType kind.

(** ** Exceptions *)

(** The exceptions a macro call can end in: [SQLMeshError], raised by the
    argument checks of [star_v2]; [NameError], raised by Python when a
    name is not bound; [ValueError], raised by the builders of sqlglot;
    and what the schema lookup of the evaluator raises when it cannot
    resolve the relation. *)
Inductive Exception : Type :=
| SQLMeshError (message : string)
| NameError (name : string)
| ValueError (message : string)
| SchemaResolutionError (message : string).

Inductive Result (A : Type) : Type :=
| Return (value : A)
| Raise (e : Exception).

Arguments Return {A} value.
Arguments Raise {A} e.

#[global] Instance Result_ret : MRet Result := λ A x, Return x.

#[global] Instance Result_bind : MBind Result := λ A B f r,
  match r with
  | Return x => f x
  | Raise e => Raise e
  end.

(** The node classes of [sqlglot.expressions] the two macros receive or
    build.  The field names are sqlglot's argument names. *)
Inductive Expr : Type :=
| Identifier (this : string) (quoted : bool)
| Column (this : Expr) (table : option Expr)
| Table (this : Expr)
| Literal (this : string) (is_string : bool)
| Boolean (this : bool)
| Null
| Tuple (expressions : list Expr)
| Array (expressions : list Expr)
| Cast (this : Expr) (to : DataType)
| Alias (this : Expr) (alias : Expr)
| Func (name : string) (args : list Expr).

(** The Python class of a node, for [isinstance]. *)
Inductive Class : Type :=
| CIdentifier | CColumn | CTable | CLiteral | CBoolean | CNull
| CTuple | CArray | CCast | CAlias | CFunc.

#[global] Instance Class_eq_dec : EqDecision Class.
Proof. solve_decision. Defined.

Definition class_of (e : Expr) : Class :=
  match e with
  | Identifier _ _ => CIdentifier
  | Column _ _ => CColumn
  | Table _ => CTable
  | Literal _ _ => CLiteral
  | Boolean _ => CBoolean
  | Null => CNull
  | Tuple _ => CTuple
  | Array _ => CArray
  | Cast _ _ => CCast
  | Alias _ _ => CAlias
  | Func _ _ => CFunc
  end.

(** [isinstance(e, (C1, ..., Cn))]. *)
Definition isinstance (e : Expr) (classes : list Class) : bool :=
  bool_decide (class_of e ∈ classes).

(** [bool(e)] for a node.  [sqlglot.expressions.Expression] defines
    neither [__bool__] nor [__len__], so Python's default applies: every
    node object is true, whatever it holds.  In particular
    [bool(exp.false())] is [True]; the value of a [Boolean] node is read
    with [.this]. *)
Definition truthy (e : Expr) : bool := true.

(** ** Builders *)

(** [exp.Literal.string(s)]. *)
Definition Literal_string (s : string) : Expr := Literal s true.

(** The message of sqlglot for a required argument that is not given. *)
Definition missing_argument (argument class : string) : string :=
  "Required argument '" +:+ argument
  +:+ "' missing for <class 'sqlglot.expressions." +:+ class +:+ "'>".

(** [exp.func(name, *args)]: a call of the function [name].  The name is
    looked up in upper case among the functions sqlglot knows; of the
    names the macros use, [CONCAT] and [COALESCE] are known and [digest]
    is not, which gives an anonymous call.  [exp.func] raises [ValueError]
    with the first error message of the node it built: the argument
    [expressions] of [CONCAT] and the argument [this] of [COALESCE], its
    first argument, are required. *)
Definition func (name : string) (args : list Expr) : Result Expr :=
  match args with
  | [] =>
      if decide (upper name = "CONCAT")
      then Raise (ValueError (missing_argument "expressions" "Concat"))
      else if decide (upper name = "COALESCE")
      then Raise (ValueError (missing_argument "this" "Coalesce"))
      else Return (Func name [])
  | _ :: _ => Return (Func name args)
  end.

(** [exp.cast(expression, to)]: an expression that is a cast to the type
    [to] already is returned as it is, and not cast again. *)
Definition cast (expression : Expr) (to : DataType) : Expr :=
  match expression with
  | Cast _ to' => if decide (to' = to) then expression else Cast expression to
  | _ => Cast expression to
  end.

(** [exp.column(col, table=table, quoted=quoted)] for strings [col] and
    [table]: both become identifiers with the given quoting. *)
Definition column (col table : string) (quoted : bool) : Expr :=
  Column (Identifier col quoted) (Some (Identifier table quoted)).

(** [expression.as_(alias, quoted=quoted)]. *)
Definition as_ (expression : Expr) (alias : string) (quoted : bool) : Expr :=
  Alias expression (Identifier alias quoted).

(** ** Accessors *)

(** [Expression.text(key)] on the argument stored under [key]: the text of
    an identifier or literal, and the empty string otherwise. *)
Definition text (field : Expr) : string :=
  match field with
  | Identifier s _ => s
  | Literal s _ => s
  | _ => ""
  end.

(** [expression.name]: the text of [this]; for a cast the name of the
    expression that is cast, for an anonymous call the name of the
    function, for [NULL] its keyword. *)
Fixpoint name (e : Expr) : string :=
  match e with
  | Identifier s _ => s
  | Literal s _ => s
  | Column this _ => text this
  | Table this => text this
  | Alias this _ => text this
  | Cast this _ => name this
  | Null => "NULL"
  | Func f arguments =>
      if decide (upper f = "CONCAT") then ""
      else if decide (upper f = "COALESCE") then
        match arguments with
        | this :: _ => text this
        | [] => ""
        end
      else f
  | Boolean _ | Tuple _ | Array _ => ""
  end.

(** [expression.expressions]: the [expressions] argument, or the empty
    list for a node without one. *)
Definition expressions (e : Expr) : list Expr :=
  match e with
  | Tuple l => l
  | Array l => l
  | Func _ l => l
  | _ => []
  end.

(** [boolean.this] for a [Boolean] node. *)
Definition this_bool (e : Expr) : bool :=
  match e with
  | Boolean b => b
  | _ => false
  end.

(** [literal.this] for a [Literal] node, as an f-string formats it. *)
Definition this_str (e : Expr) : string :=
  match e with
  | Literal s _ => s
  | _ => ""
  end.

(** [enumerate(l)], from the index [i] on. *)
Fixpoint enumerate_from {A : Type} (i : nat) (l : list A) : list (nat * A) :=
  match l with
  | [] => []
  | x :: l' => (i, x) :: enumerate_from (S i) l'
  end.

Definition enumerate {A : Type} (l : list A) : list (nat * A) :=
  enumerate_from 0 l.

(** ** generate_surrogate_key.py *)

Module SurrogateKey.

(** The literal that stands for a NULL field. *)
Definition null_sentinel : string := "_sqlmesh_surrogate_key_null_".

(** What the loop appends for a field:
    [exp.func("COALESCE", exp.cast(field, exp.DataType.build("text")),
    exp.Literal.string("_sqlmesh_surrogate_key_null_"))]. *)
Definition coalesce_field (field : Expr) : Result Expr :=
  func "COALESCE"
    [cast field (DataType_build "text"); Literal_string null_sentinel].

(** The [for i, field in enumerate(fields)] loop, on the list
    [string_fields] it appends to. *)
Fixpoint loop (string_fields : list Expr) (fields : list (nat * Expr))
    : Result (list Expr) :=
  match fields with
  | [] => Return string_fields
  | (i, field) :: fields' =>
      let string_fields :=
        if bool_decide (0 < i) then string_fields ++ [Literal_string "|"]
        else string_fields in
      coalesce ← coalesce_field field ;
      loop (string_fields ++ [coalesce]) fields'
  end.

(** [generate_surrogate_key__sha_256(evaluator, *fields)]; the evaluator
    is not used by the body. *)
Definition generate_surrogate_key__sha_256 (fields : list Expr) : Result Expr :=
  string_fields ← loop [] (enumerate fields) ;
  concat ← func "CONCAT" string_fields ;
  func "digest" [concat; Literal_string "sha256"].

(** *** The result, field by field *)

(** A cast to [TEXT]. *)
Definition is_text_cast (field : Expr) : bool :=
  match field with
  | Cast _ TEXT => true
  | _ => false
  end.

(** The node that stands for a field in the key: the field as text, with
    the sentinel in the place of NULL. *)
Definition wrapped (field : Expr) : Expr :=
  Func "COALESCE"
    [if is_text_cast field then field else Cast field TEXT;
     Literal "_sqlmesh_surrogate_key_null_" true].

(** *** The specification's description of the result *)


(** [x1, sep, x2, sep, ..., xn]. *)
Fixpoint join_with (sep : Expr) (l : list Expr) : list Expr :=
  match l with
  | [] => []
  | x :: l' =>
      match l' with
      | [] => [x]
      | _ :: _ => x :: sep :: join_with sep l'
      end
  end.


(** [digest(CONCAT(x_1, "|", ..., x_n), "sha256")] for the nodes [x_i]
    that stand for the fields. *)
Definition key_of (nodes : list Expr) : Expr :=
  Func "digest"
    [Func "CONCAT" (join_with (Literal "|" true) nodes); Literal "sha256" true].

End SurrogateKey.

(** ** The log and the monad of [star_v2] *)

(** A computation that carries the log of warnings and either returns or
    raises. *)
Definition M (A : Type) : Type := list string → list string * Result A.

#[global] Instance M_ret : MRet M := λ A x log, (log, Return x).

#[global] Instance M_bind : MBind M := λ A B f m log,
  match m log with
  | (log', Return x) => f x log'
  | (log', Raise e) => (log', Raise e)
  end.

(** [raise e]. *)
Definition raise {A : Type} (e : Exception) : M A := λ log, (log, Raise e).

(** [logger.warning(message)] in star_v2.py.  The module binds the names
    [t], [macro], [exp], [MacroEvaluator], [normalize_identifiers],
    [MacroEvalError] and [SQLMeshError] and no [logger]: looking the name
    up raises [NameError] before anything is logged. *)
Definition logger_warning (message : string) : M unit :=
  raise (NameError "logger").

(** The outcome of a call that returns or raises without logging. *)
Definition lift {A : Type} (r : Result A) : M A := λ log, (log, r).

(** [if b: body], for a body that only has effects. *)
Definition when (b : bool) (body : M unit) : M unit :=
  if b then body else mret ().

(** A macro call starts with an empty log. *)
Definition run {A : Type} (m : M A) : list string * Result A := m [].

Definition warnings {A : Type} (m : M A) : list string := (run m).1.

Definition outcome {A : Type} (m : M A) : Result A := (run m).2.

(** ** star_v2.py *)

(** [sqlmesh.core.macros.MacroEvaluator], as far as [star_v2] uses it:
    the SQL dialect, and the schema lookup [columns_to_types(relation)],
    which gives the columns of the relation with their declared types in
    the order of the schema, or raises. *)
Record MacroEvaluator : Type := {
  dialect : string;
  columns_to_types : Expr → Result (list (string * DataType))
}.

(** [a or b] on Python strings: the empty string is false. *)
Definition str_or (a b : string) : string :=
  if decide (a = "") then b else a.

(** [e != exp.tuple_()] is decided by [negb (is_tuple_ e)]: [exp.tuple_()]
    is the tuple node without expressions. *)
Definition is_tuple_ (e : Expr) : bool :=
  match e with
  | Tuple [] => true
  | _ => false
  end.

(** Modelled from the spec: [columns_to_types_all_known] is called by
    [star_v2] but star_v2.py neither defines nor imports it (it is a
    helper of the sqlmesh package).  Step 5 of the algorithm: every
    remaining column has a known (non-unknown) declared type. *)
Definition columns_to_types_all_known (columns_to_types : list (string * DataType)) : bool :=
  forallb (λ kv, bool_decide (kv.2 ≠ UNKNOWN)) columns_to_types.

(** The three list comprehensions [star_v2] returns. *)

(** [[exp.column(column, table=table_identifier, quoted=quoted) for ...]] *)
Definition bare_columns (table_identifier : string) (quoted : bool)
    (columns_to_types : list (string * DataType)) : list Expr :=
  map (λ kv, column kv.1 table_identifier quoted) columns_to_types.

(** [[exp.cast(exp.column(...), dtype).as_(f"{prefix.this}{column}{suffix.this}", quoted=quoted) for ...]] *)
Definition cast_projections (table_identifier : string) (quoted : bool)
    (prefix suffix : Expr) (columns_to_types : list (string * DataType)) : list Expr :=
  map (λ kv,
         as_ (cast (column kv.1 table_identifier quoted) kv.2)
             (this_str prefix +:+ kv.1 +:+ this_str suffix) quoted)
      columns_to_types.

(** [[exp.column(...).as_(f"{prefix.this}{column}{suffix.this}", quoted=quoted) for ...]] *)
Definition aliased_columns (table_identifier : string) (quoted : bool)
    (prefix suffix : Expr) (columns_to_types : list (string * DataType)) : list Expr :=
  map (λ kv,
         as_ (column kv.1 table_identifier quoted)
             (this_str prefix +:+ kv.1 +:+ this_str suffix) quoted)
      columns_to_types.

(** The default values of the optional arguments. *)
Definition default_alias : Expr := Column (Identifier "" true) None.
Definition default_exclude : Expr := Tuple [].
Definition default_prefix : Expr := Literal_string "".
Definition default_suffix : Expr := Literal_string "".
Definition default_quote_identifiers : Expr := Boolean true.
Definition default_except_ : Expr := Tuple [].
Definition default_select_only : Expr := Boolean false.

Definition except_deprecation : string :=
  "The 'except_' argument in @STAR will soon be deprecated. Use 'exclude' instead.".

Section StarV2.

(** [str(e)] inside an f-string: the SQL text of the node. *)
Variable sql : Expr → string.

(** [sqlglot.optimizer.normalize_identifiers.normalize_identifiers(e, dialect=d)],
    the IdentifierNormalizer collaborator of the specification. *)
Variable normalize_identifiers : Expr → string → Expr.

(** The set comprehension [excluded_names] over [exclude.expressions]. *)
Definition excluded_names_of (evaluator : MacroEvaluator) (exclude : Expr) : gset string :=
  list_to_set
    (map (λ excluded, name (normalize_identifiers excluded (dialect evaluator)))
         (expressions exclude)).

(** The dictionary comprehension that drops the excluded columns. *)
Definition retained (excluded_names : gset string)
    (columns : list (string * DataType)) : list (string * DataType) :=
  filter (λ kv, kv.1 ∉ excluded_names) columns.

Definition star_v2 (evaluator : MacroEvaluator)
    (relation alias exclude prefix suffix quote_identifiers except_ select_only : Expr)
    : M (list Expr) :=
  when (truthy alias && negb (isinstance alias [CIdentifier; CColumn]))
    (raise (SQLMeshError
       ("Invalid alias '" +:+ sql alias +:+ "'. Expected an identifier."))) ;;
  when (truthy exclude && negb (isinstance exclude [CArray; CTuple; CColumn]))
    (raise (SQLMeshError
       ("Invalid exclude '" +:+ sql exclude +:+ "'. Expected an array or a column."))) ;;
  when (negb (is_tuple_ except_))
    (logger_warning except_deprecation ;;
     when (negb (isinstance exclude [CArray; CTuple; CColumn]))
       (raise (SQLMeshError
          ("Invalid exclude_ '" +:+ sql exclude +:+ "'. Expected an array or a column.")))) ;;
  when (truthy prefix && negb (isinstance prefix [CLiteral]))
    (raise (SQLMeshError
       ("Invalid prefix '" +:+ sql prefix +:+ "'. Expected a literal."))) ;;
  when (truthy suffix && negb (isinstance suffix [CLiteral]))
    (raise (SQLMeshError
       ("Invalid suffix '" +:+ sql suffix +:+ "'. Expected a literal."))) ;;
  when (negb (isinstance quote_identifiers [CBoolean]))
    (raise (SQLMeshError
       ("Invalid quote_identifiers '" +:+ sql quote_identifiers +:+ "'. Expected a boolean."))) ;;
  when (negb (isinstance select_only [CBoolean]))
    (raise (SQLMeshError
       ("Invalid select_only '" +:+ sql select_only +:+ "'. Expected a boolean."))) ;;
  let exclude := if isinstance exclude [CColumn] then Tuple [exclude] else exclude in
  let excluded_names := excluded_names_of evaluator exclude in
  let quoted := this_bool quote_identifiers in
  let table_identifier := str_or (name alias) (name relation) in
  columns ← lift (columns_to_types evaluator relation) ;
  let columns_to_types := retained excluded_names columns in
  if truthy select_only then
    mret (bare_columns table_identifier quoted columns_to_types)
  else if columns_to_types_all_known columns_to_types then
    mret (cast_projections table_identifier quoted prefix suffix columns_to_types)
  else
    mret (aliased_columns table_identifier quoted prefix suffix columns_to_types).

End StarV2.

(** *** A schema and a normalizer to run the macro on *)

(** The schema of the example in the docstring of [star_v2]:
    [{"foo": {"a": string, "b": string, "c": string, "d": int}}]. *)
Definition foo_schema : MacroEvaluator := {|
  dialect := "";
  columns_to_types := λ relation,
    if decide (name relation = "foo")
    then Return [("a", TEXT); ("b", TEXT); ("c", TEXT); ("d", INT)]
    else Raise (SchemaResolutionError "foo")
|}.

(** A schema in which the type of column [b] is not known. *)
Definition partly_typed_schema : MacroEvaluator := {|
  dialect := "";
  columns_to_types := λ _, Return [("a", TEXT); ("b", UNKNOWN); ("c", INT)]
|}.

(** A normalizer for names that are in normal form already. *)
Definition normalize_id (e : Expr) (dialect : string) : Expr := e.

(** A printer of nodes that is enough for the messages: the name. *)
Definition sql_name (e : Expr) : string := name e.

Definition col (c : string) : Expr := Column (Identifier c false) None.
Definition foo : Expr := Table (Identifier "foo" false).
Definition bar : Expr := Column (Identifier "bar" false) None.

(** *** What the statements about [star_v2] speak of *)

(** The arguments have the shapes the checks of [star_v2] ask for. *)
Definition well_shaped (alias exclude prefix suffix quote_identifiers select_only : Expr) : bool :=
  isinstance alias [CIdentifier; CColumn]
  && isinstance exclude [CArray; CTuple; CColumn]
  && isinstance prefix [CLiteral]
  && isinstance suffix [CLiteral]
  && isinstance quote_identifiers [CBoolean]
  && isinstance select_only [CBoolean].

(** The qualifier of the columns: the name of the alias, or of the
    relation when the alias has no name. *)
Definition table_identifier_of (alias relation : Expr) : string :=
  str_or (name alias) (name relation).

(** The nodes an exclusion argument lists: a bare column counts as a
    tuple of that one column. *)
Definition listed (exclude : Expr) : list Expr :=
  expressions (if isinstance exclude [CColumn] then Tuple [exclude] else exclude).

(** The column a projection reads: the column under the alias and the
    cast, when there are any. *)
Fixpoint source_column (projection : Expr) : string :=
  match projection with
  | Alias this _ => source_column this
  | Cast this _ => source_column this
  | _ => name projection
  end.

(** [projection.output_name]: the name of the column in the result of the
    query, which is the alias when there is one. *)
Definition output_name (projection : Expr) : string :=
  match projection with
  | Alias _ alias => name alias
  | _ => name projection
  end.

(** The exclusion set of a call: the normalized names of the nodes the
    exclusion argument lists. *)
Definition exclusion_set (normalize_identifiers : Expr → string → Expr)
    (evaluator : MacroEvaluator) (exclude : Expr) : gset string :=
  excluded_names_of normalize_identifiers evaluator (Tuple (listed exclude)).

(** The arguments of the [CONCAT] call inside a surrogate key
    [digest(CONCAT(...), "sha256")]. *)
Definition concat_arguments (key : Expr) : list Expr :=
  match key with
  | Func _ (Func _ arguments :: _) => arguments
  | _ => []
  end.

(** ** Properties of [generate_surrogate_key__sha_256] *)

Section SurrogateKeyFacts.

Import SurrogateKey.

Local Abbreviation sep := (Literal "|" true).

(** What [exp.cast] to text gives: the field itself when it is a cast to
    text, the cast of the field otherwise. *)
Lemma cast_text (field : Expr) :
  cast field (DataType_build "text")
  = if is_text_cast field then field else Cast field TEXT.
Proof.
  change (DataType_build "text") with TEXT.
  destruct field as [| | | | | | | |this to| |]; try reflexivity.
  destruct to; reflexivity.
Qed.

Lemma coalesce_field_wrapped (field : Expr) :
  coalesce_field field = Return (wrapped field).
Proof. unfold coalesce_field, wrapped. by rewrite cast_text. Qed.

(** After the first field, every turn of the loop appends the separator
    and the node of the field. *)
Lemma loop_from_pos (fields : list Expr) (i : nat) (string_fields : list Expr) :
  0 < i →
  loop string_fields (enumerate_from i fields) =
  Return (string_fields ++ flat_map (λ field, [sep; wrapped field]) fields).
Proof.
  revert i string_fields.
  induction fields as [|field fields IH]; intros i acc Hi; cbn [enumerate_from loop flat_map].
  - by rewrite app_nil_r.
  - rewrite coalesce_field_wrapped. cbn [mbind Result_bind].
    rewrite IH by lia.
    rewrite bool_decide_eq_true_2 by done.
    by rewrite <- !app_assoc.
Qed.

Lemma join_with_cons (s x : Expr) (l : list Expr) :
  join_with s (x :: l) = x :: flat_map (λ y, [s; y]) l.
Proof.
  revert x. induction l as [|y l IH]; intros x; [done|].
  change (join_with s (x :: y :: l)) with (x :: s :: join_with s (y :: l)).
  by rewrite IH.
Qed.

Lemma flat_map_map {A B C : Type} (f : A → B) (g : B → list C) (l : list A) :
  flat_map g (map f l) = flat_map (λ x, g (f x)) l.
Proof. induction l as [|x l IH]; simpl; [done | by rewrite IH]. Qed.

(** The list the loop builds is the nodes of the fields joined by the
    separator. *)
Lemma string_fields_joined (fields : list Expr) :
  loop [] (enumerate fields) = Return (join_with sep (map wrapped fields)).
Proof.
  destruct fields as [|field fields]; [done|].
  unfold enumerate. cbn [enumerate_from loop map].
  rewrite coalesce_field_wrapped. cbn [mbind Result_bind].
  rewrite join_with_cons, flat_map_map, loop_from_pos by lia.
  done.
Qed.

(** With a field the macro returns the key over the nodes of the fields;
    without it raises, in [exp.func("CONCAT")]. *)
Lemma generate_surrogate_key_fields (fields : list Expr) :
  fields ≠ [] →
  generate_surrogate_key__sha_256 fields = Return (key_of (map wrapped fields)).
Proof.
  intros Hne. unfold generate_surrogate_key__sha_256.
  rewrite string_fields_joined. cbn [mbind Result_bind].
  destruct fields as [|field fields]; [done|].
  cbn [map]. unfold key_of. by rewrite join_with_cons.
Qed.

Lemma generate_surrogate_key_no_field :
  generate_surrogate_key__sha_256 []
  = Raise (ValueError (missing_argument "expressions" "Concat")).
Proof. reflexivity. Qed.




End SurrogateKeyFacts.
(** ** Properties of [star_v2] *)

Section StarFacts.

Context (sql : Expr → string) (normalize_identifiers : Expr → string → Expr).

Local Abbreviation star := (star_v2 sql normalize_identifiers).
Local Abbreviation exclusion := (exclusion_set normalize_identifiers).

Lemma is_tuple__spec (e : Expr) : is_tuple_ e = true ↔ e = Tuple [].
Proof.
  split; [|by intros ->].
  destruct e as [| | | | | |[|]| | | |]; simpl; congruence.
Qed.

(** A call whose arguments pass the checks: when [except_] is given, the
    call of the unbound [logger] raises; otherwise the schema is looked up
    and one of the three lists of projections over the retained columns is
    returned. *)
Lemma star_v2_well_shaped ev relation alias exclude prefix suffix quote_identifiers
    except_ select_only log :
  well_shaped alias exclude prefix suffix quote_identifiers select_only = true →
  star ev relation alias exclude prefix suffix quote_identifiers except_ select_only log =
  (log,
   if is_tuple_ except_ then
     match columns_to_types ev relation with
     | Return columns =>
         let columns_to_types :=
           retained (exclusion ev exclude) columns in
         let table_identifier := table_identifier_of alias relation in
         let quoted := this_bool quote_identifiers in
         Return
           (if truthy select_only then
              bare_columns table_identifier quoted columns_to_types
            else if columns_to_types_all_known columns_to_types then
              cast_projections table_identifier quoted prefix suffix columns_to_types
            else
              aliased_columns table_identifier quoted prefix suffix columns_to_types)
     | Raise e => Raise e
     end
   else Raise (NameError "logger")).
Proof.
  unfold well_shaped. rewrite !andb_true_iff.
  intros [[[[[Ha He] Hp] Hs] Hq] Hso].
  unfold star_v2, when, logger_warning, exclusion_set, excluded_names_of, listed,
    table_identifier_of.
  unfold mbind, M_bind, mret, M_ret, raise, lift.
  rewrite Ha, He, Hp, Hs, Hq, Hso. cbn [truthy andb negb].
  destruct (is_tuple_ except_); cbn [negb]; [|reflexivity].
  destruct (columns_to_types ev relation) as [columns|e]; try reflexivity;
    destruct (isinstance exclude [CColumn]); cbn [expressions];
    repeat match goal with |- context [if ?b then _ else _] => destruct b end;
    reflexivity.
Qed.

(** A call with an argument of the wrong shape raises. *)
Lemma star_v2_ill_shaped ev relation alias exclude prefix suffix quote_identifiers
    except_ select_only log :
  well_shaped alias exclude prefix suffix quote_identifiers select_only = false →
  ∃ e,
    (star ev relation alias exclude prefix suffix quote_identifiers except_ select_only log).2
    = Raise e.
Proof.
  unfold well_shaped. intros H.
  unfold star_v2, when, logger_warning.
  unfold mbind, M_bind, mret, M_ret, raise, lift.
  cbn [truthy andb negb].
  destruct (isinstance alias [CIdentifier; CColumn]); cbn [negb andb]; [|by eexists].
  destruct (isinstance exclude [CArray; CTuple; CColumn]); cbn [negb andb]; [|by eexists].
  destruct (is_tuple_ except_); cbn [negb andb]; [|by eexists].
  destruct (isinstance prefix [CLiteral]); cbn [negb andb]; [|by eexists].
  destruct (isinstance suffix [CLiteral]); cbn [negb andb]; [|by eexists].
  destruct (isinstance quote_identifiers [CBoolean]); cbn [negb andb]; [|by eexists].
  destruct (isinstance select_only [CBoolean]); cbn [negb andb]; [|by eexists].
  done.
Qed.

(** The test [if select_only:] is on the node, which is true: a call that
    gets to it returns the bare columns whatever the value of
    [select_only] is, and the two other comprehensions are never
    evaluated. *)
Lemma star_v2_bare_columns ev relation alias exclude prefix suffix quote_identifiers
    select_only columns :
  well_shaped alias exclude prefix suffix quote_identifiers select_only = true →
  columns_to_types ev relation = Return columns →
  outcome (star ev relation alias exclude prefix suffix quote_identifiers (Tuple [])
             select_only)
  = Return (bare_columns (table_identifier_of alias relation) (this_bool quote_identifiers)
              (retained (exclusion ev exclude) columns)).
Proof.
  intros Hshape Hcols. unfold outcome, run.
  rewrite star_v2_well_shaped by done. cbn [is_tuple_ snd]. by rewrite Hcols.
Qed.

(** What a call returns, when it returns. *)
Lemma star_v2_returns ev relation alias exclude prefix suffix quote_identifiers
    except_ select_only out :
  outcome (star ev relation alias exclude prefix suffix quote_identifiers except_ select_only)
    = Return out →
  ∃ columns,
    columns_to_types ev relation = Return columns ∧
    let retained_columns := retained (exclusion ev exclude) columns in
    let table_identifier := table_identifier_of alias relation in
    let quoted := this_bool quote_identifiers in
    out = bare_columns table_identifier quoted retained_columns
    ∨ out = cast_projections table_identifier quoted prefix suffix retained_columns
    ∨ out = aliased_columns table_identifier quoted prefix suffix retained_columns.
Proof.
  unfold outcome, run. intros Hout.
  destruct (well_shaped alias exclude prefix suffix quote_identifiers select_only) eqn:Hshape.
  - rewrite star_v2_well_shaped in Hout by done. cbn [snd] in Hout.
    destruct (is_tuple_ except_); [|discriminate].
    destruct (columns_to_types ev relation) as [columns|e]; [|discriminate].
    exists columns. split; [done|]. cbn zeta in *.
    injection Hout as <-.
    repeat match goal with |- context [if ?b then _ else _] => destruct b end;
      first [by left | right; by left | right; by right].
  - destruct (star_v2_ill_shaped ev relation alias exclude prefix suffix
                quote_identifiers except_ select_only [] Hshape) as [e Hraise].
    congruence.
Qed.

(** Every projection reads the column it was built for. *)
Lemma source_column_projections table_identifier quoted prefix suffix
    (columns : list (string * DataType)) (out : list Expr) :
  out = bare_columns table_identifier quoted columns
  ∨ out = cast_projections table_identifier quoted prefix suffix columns
  ∨ out = aliased_columns table_identifier quoted prefix suffix columns →
  map source_column out = map fst columns.
Proof.
  unfold bare_columns, cast_projections, aliased_columns.
  intros [-> | [-> | ->]]; rewrite map_map; by apply map_ext.
Qed.

Lemma retained_names (X : gset string) (columns : list (string * DataType)) :
  map fst (retained X columns) = filter (λ k, k ∉ X) (map fst columns).
Proof.
  unfold retained.
  induction columns as [|[k v] columns IH]; [done|].
  rewrite filter_cons. cbn [map fst]. rewrite filter_cons. cbn [fst].
  destruct (decide (k ∉ X)); cbn [map fst]; by rewrite IH.
Qed.

Lemma elem_of_exclusion_set ev exclude (x : string) :
  x ∈ exclusion ev exclude ↔
  ∃ excluded, excluded ∈ listed exclude
              ∧ x = name (normalize_identifiers excluded (dialect ev)).
Proof.
  unfold exclusion_set, excluded_names_of. cbn [expressions].
  rewrite elem_of_list_to_set, list_elem_of_fmap.
  split; intros (excluded & ? & ?); by exists excluded.
Qed.


(** C8. The output name of every projection a call returns is the name of
    a column of the schema of the relation, or that name between the
    prefix and the suffix. *)
Theorem star_v2_names_from_schema ev relation alias exclude prefix suffix
    quote_identifiers except_ select_only out :
  outcome (star ev relation alias exclude prefix suffix quote_identifiers except_ select_only)
    = Return out →
  ∃ columns,
    columns_to_types ev relation = Return columns ∧
    ∀ projection, projection ∈ out →
      ∃ k, k ∈ map fst columns
           ∧ (output_name projection = k
              ∨ output_name projection = this_str prefix +:+ k +:+ this_str suffix).
Proof.
  intros Hout. apply star_v2_returns in Hout as (columns & Hcols & Hout).
  exists columns. split; [done|]. cbn zeta in Hout.
  assert (∀ kv, kv ∈ retained (exclusion ev exclude) columns → kv.1 ∈ map fst columns)
    as Hkey.
  { intros kv [_ Hin]%list_elem_of_filter. apply list_elem_of_fmap. eauto. }
  unfold bare_columns, cast_projections, aliased_columns in Hout.
  intros projection Hin.
  destruct Hout as [-> | [-> | ->]];
    apply list_elem_of_fmap in Hin as (kv & -> & Hkv);
    exists kv.1; (split; [by apply Hkey|]); [by left | by right | by right].
Qed.

End StarFacts.

(** ** The macros on concrete calls *)

Section Calls.

Import SurrogateKey.

Local Abbreviation star := (star_v2 sql_name normalize_id).








Lemma star_v2_names_from_schema_witness :
  outcome (star foo_schema foo bar (Array [col "c"]) (Literal_string "baz_")
             default_suffix default_quote_identifiers default_except_ (Boolean true))
  = Return [column "a" "bar" true; column "b" "bar" true; column "d" "bar" true]
  ∧ ∃ columns,
      columns_to_types foo_schema foo = Return columns ∧
      ∀ projection,
        projection ∈ [column "a" "bar" true; column "b" "bar" true; column "d" "bar" true] →
        ∃ k, k ∈ map fst columns
             ∧ (output_name projection = k
                ∨ output_name projection
                  = this_str (Literal_string "baz_") +:+ k +:+ this_str default_suffix).
Proof.
  split; [vm_compute; reflexivity|].
  apply (star_v2_names_from_schema sql_name normalize_id foo_schema foo bar
           (Array [col "c"]) (Literal_string "baz_") default_suffix
           default_quote_identifiers default_except_ (Boolean true)).
  vm_compute; reflexivity.
Defined.


(** C1. The call of the docstring with the column [c] given through
    [except_] raises [NameError] for the unbound [logger]: it logs no
    warning and returns no projection; given through [exclude] the
    column is dropped. *)
Theorem star_v2_except__not_applied :
  run (star foo_schema foo bar default_exclude default_prefix default_suffix
         default_quote_identifiers (Tuple [col "c"]) default_select_only)
  = ([], Raise (NameError "logger"))
  ∧ run (star foo_schema foo bar (Tuple [col "c"]) default_prefix default_suffix
           default_quote_identifiers default_except_ default_select_only)
    = ([], Return [column "a" "bar" true; column "b" "bar" true; column "d" "bar" true]).
Proof. split; vm_compute; reflexivity. Qed.

(** C3. With [select_only] false and a column of unknown type, the call
    returns the bare columns, and not the columns under the aliases with
    the prefix that the last comprehension of [star_v2] builds. *)
Theorem star_v2_unknown_type_call :
  outcome (star partly_typed_schema foo bar default_exclude (Literal_string "baz_")
             default_suffix (Boolean true) default_except_ (Boolean false))
  = Return [column "a" "bar" true; column "b" "bar" true; column "c" "bar" true]
  ∧ outcome (star partly_typed_schema foo bar default_exclude (Literal_string "baz_")
               default_suffix (Boolean true) default_except_ (Boolean false))
    ≠ Return [Alias (column "a" "bar" true) (Identifier "baz_a" true);
              Alias (column "b" "bar" true) (Identifier "baz_b" true);
              Alias (column "c" "bar" true) (Identifier "baz_c" true)].
Proof. split; vm_compute; [reflexivity | discriminate]. Qed.

(** C4. The call of the docstring, all types known and [select_only]
    false, returns the bare columns, and not the casts under the aliases
    that the second comprehension of [star_v2] builds. *)
Theorem star_v2_known_types_call :
  outcome (star foo_schema foo bar (Array [col "c"]) (Literal_string "baz_")
             default_suffix (Boolean true) default_except_ (Boolean false))
  = Return [column "a" "bar" true; column "b" "bar" true; column "d" "bar" true]
  ∧ outcome (star foo_schema foo bar (Array [col "c"]) (Literal_string "baz_")
               default_suffix (Boolean true) default_except_ (Boolean false))
    ≠ Return [Alias (Cast (column "a" "bar" true) TEXT) (Identifier "baz_a" true);
              Alias (Cast (column "b" "bar" true) TEXT) (Identifier "baz_b" true);
              Alias (Cast (column "d" "bar" true) INT) (Identifier "baz_d" true)].
Proof. split; vm_compute; [reflexivity | discriminate]. Qed.


(** C6. With [select_only] true and a column given through [except_], the
    call raises [NameError] for the unbound [logger] and returns no
    column; without [except_] the same call returns the bare columns. *)
Theorem star_v2_select_only_except__call :
  outcome (star partly_typed_schema foo bar (Array [col "c"]) (Literal_string "baz_")
             default_suffix (Boolean true) (Tuple [col "b"]) (Boolean true))
  = Raise (NameError "logger")
  ∧ outcome (star partly_typed_schema foo bar (Array [col "c"]) (Literal_string "baz_")
               default_suffix (Boolean true) default_except_ (Boolean true))
    = Return [column "a" "bar" true; column "b" "bar" true].
Proof. split; vm_compute; reflexivity. Qed.

(** C7. With a prefix that is not a literal and a column given through
    [except_], the call raises [NameError] for the unbound [logger], and
    not [SQLMeshError]; without [except_] the same call raises the
    [SQLMeshError] of the prefix. *)
Theorem star_v2_ill_shaped_except__call :
  outcome (star foo_schema foo bar default_exclude (col "p") default_suffix
             default_quote_identifiers (Tuple [col "c"]) default_select_only)
  = Raise (NameError "logger")
  ∧ outcome (star foo_schema foo bar default_exclude (col "p") default_suffix
               default_quote_identifiers default_except_ default_select_only)
    = Raise (SQLMeshError "Invalid prefix 'p'. Expected a literal.").
Proof. split; vm_compute; reflexivity. Qed.

End Calls.

(** ** More on [generate_surrogate_key__sha_256] *)

Section SurrogateKeyArguments.

Import SurrogateKey.

Local Abbreviation sep := (Literal "|" true).
Local Abbreviation separated s := (flat_map (λ y : Expr, [s; y])).

(** The key of a non-empty list of fields, and the arguments of its
    [CONCAT] call. *)
Lemma concat_arguments_joined (fields : list Expr) :
  fields ≠ [] →
  ∃ key,
    generate_surrogate_key__sha_256 fields = Return key
    ∧ concat_arguments key = join_with sep (map wrapped fields).
Proof.
  intros Hne. exists (key_of (map wrapped fields)).
  by rewrite generate_surrogate_key_fields.
Qed.

Lemma separated_length (s : Expr) (l : list Expr) :
  length (separated s l) = 2 * length l.
Proof. induction l as [|y l IH]; cbn [flat_map length app]; lia. Qed.

Lemma separated_lookup_odd (s : Expr) (l : list Expr) (j : nat) :
  separated s l !! (2 * j + 1) = l !! j.
Proof.
  revert j. induction l as [|y l IH]; intros j; [done|].
  destruct j as [|j]; [done|].
  replace (2 * S j + 1) with (S (S (2 * j + 1))) by lia.
  apply IH.
Qed.

Lemma separated_lookup_even (s : Expr) (l : list Expr) (j : nat) :
  j < length l → separated s l !! (2 * j) = Some s.
Proof.
  revert j. induction l as [|y l IH]; intros j Hj; cbn [length] in Hj; [lia|].
  destruct j as [|j]; [done|].
  replace (2 * S j) with (S (S (2 * j))) by lia.
  apply IH. lia.
Qed.

Lemma separated_inj (s : Expr) (l l' : list Expr) :
  separated s l = separated s l' → l = l'.
Proof.
  revert l'. induction l as [|y l IH]; intros [|y' l'] H; try done.
  cbn [flat_map app] in H. injection H as -> H. f_equal. by apply IH.
Qed.

Lemma join_with_inj (s : Expr) (l l' : list Expr) :
  join_with s l = join_with s l' → l = l'.
Proof.
  destruct l as [|x l], l' as [|x' l']; try done.
  - rewrite join_with_cons. done.
  - rewrite join_with_cons. done.
  - rewrite !join_with_cons. intros H. injection H as -> H.
    f_equal. by apply separated_inj in H.
Qed.


Lemma wrapped_inj (l l' : list Expr) :
  Forall (λ field, is_text_cast field = false) l →
  Forall (λ field, is_text_cast field = false) l' →
  map wrapped l = map wrapped l' → l = l'.
Proof.
  intros Hl. revert l'.
  induction Hl as [|x l Hx Hl IH]; intros [|x' l'] Hl' H; try done.
  apply Forall_cons in Hl' as [Hx' Hl'].
  cbn [map] in H. injection H as Hxx H.
  unfold wrapped in Hxx. rewrite Hx, Hx' in Hxx. injection Hxx as ->.
  f_equal. by apply IH.
Qed.

(** X1. Two different lists of fields, whatever their lengths, in which
    no field is a cast to [TEXT] already, give two different results:
    the key determines the fields and their order. *)
Theorem surrogate_key_injective (fields fields' : list Expr) :
  Forall (λ field, is_text_cast field = false) fields →
  Forall (λ field, is_text_cast field = false) fields' →
  fields ≠ fields' →
  generate_surrogate_key__sha_256 fields ≠ generate_surrogate_key__sha_256 fields'.
Proof.
  intros Hf Hf' Hne Heq.
  destruct fields as [|f fields], fields' as [|f' fields']; [done| | |].
  - by rewrite generate_surrogate_key_no_field, generate_surrogate_key_fields in Heq.
  - by rewrite generate_surrogate_key_no_field, generate_surrogate_key_fields in Heq.
  - rewrite !generate_surrogate_key_fields in Heq by done.
    unfold key_of in Heq. injection Heq as Heq.
    apply Hne. by apply wrapped_inj, (join_with_inj sep).
Qed.

(** X2. For n fields, n at least one, the macro returns a key whose
    [CONCAT] call has 2n - 1 arguments: one per field and one separator
    between two neighbours, none before the first field and none after
    the last. *)
Theorem surrogate_key_argument_count (fields : list Expr) :
  fields ≠ [] →
  ∃ key,
    generate_surrogate_key__sha_256 fields = Return key
    ∧ length (concat_arguments key) = 2 * length fields - 1.
Proof.
  intros Hne. destruct (concat_arguments_joined fields Hne) as (key & Hkey & Hargs).
  exists key. split; [done|]. rewrite Hargs.
  destruct fields as [|field fields]; [done|].
  cbn [map]. rewrite join_with_cons. cbn [length].
  rewrite separated_length, length_map. lia.
Qed.

(** X3. In the key of a non-empty list of fields, the argument at
    position 2i of the [CONCAT] call is [COALESCE(t, sentinel)] for the
    i-th field, with [t] the field cast to text by [exp.cast]; past the
    last field there is no such argument. *)
Theorem surrogate_key_field_position (fields : list Expr) :
  fields ≠ [] →
  ∃ key,
    generate_surrogate_key__sha_256 fields = Return key
    ∧ ∀ i, concat_arguments key !! (2 * i)
           = (λ field, Func "COALESCE"
                         [cast field TEXT;
                          Literal "_sqlmesh_surrogate_key_null_" true])
             <$> fields !! i.
Proof.
  intros Hne. destruct (concat_arguments_joined fields Hne) as (key & Hkey & Hargs).
  exists key. split; [done|]. intros i. rewrite Hargs.
  assert (∀ field, Func "COALESCE"
                     [cast field TEXT; Literal "_sqlmesh_surrogate_key_null_" true]
                   = wrapped field) as Hw.
  { intros field. unfold wrapped. by rewrite <- cast_text. }
  rewrite (option_fmap_ext _ wrapped) by done.
  destruct fields as [|field fields]; [done|].
  cbn [map]. rewrite join_with_cons.
  destruct i as [|i]; [done|].
  replace (2 * S i) with (S (2 * i + 1)) by lia.
  cbn [lookup list_lookup].
  rewrite separated_lookup_odd. apply list_lookup_fmap.
Qed.

(** X4. The macro returns a key in which the argument at position 2i + 1
    of the [CONCAT] call, between the i-th field and the next one, is the
    separator literal. *)
Theorem surrogate_key_separator_position (fields : list Expr) (i : nat) :
  i + 1 < length fields →
  ∃ key,
    generate_surrogate_key__sha_256 fields = Return key
    ∧ concat_arguments key !! (2 * i + 1) = Some (Literal "|" true).
Proof.
  intros Hi.
  assert (fields ≠ []) as Hne by (intros ->; cbn in Hi; lia).
  destruct (concat_arguments_joined fields Hne) as (key & Hkey & Hargs).
  exists key. split; [done|]. rewrite Hargs.
  destruct fields as [|field fields]; cbn [length] in Hi; [lia|].
  cbn [map]. rewrite join_with_cons.
  replace (2 * i + 1) with (S (2 * i)) by lia.
  cbn [lookup list_lookup].
  apply separated_lookup_even. rewrite length_map. lia.
Qed.

(** X5. One more field at the end of a non-empty list of fields adds the
    separator and the node of the field at the end of the [CONCAT] call
    and leaves the arguments before them as they were. *)
Theorem surrogate_key_append (fields : list Expr) (field : Expr) :
  fields ≠ [] →
  ∃ key key',
    generate_surrogate_key__sha_256 fields = Return key
    ∧ generate_surrogate_key__sha_256 (fields ++ [field]) = Return key'
    ∧ concat_arguments key'
      = concat_arguments key
        ++ [Literal "|" true;
            Func "COALESCE"
              [cast field TEXT; Literal "_sqlmesh_surrogate_key_null_" true]].
Proof.
  intros Hne.
  assert (fields ++ [field] ≠ []) as Hne' by (by destruct fields).
  destruct (concat_arguments_joined fields Hne) as (key & Hkey & Hargs).
  destruct (concat_arguments_joined _ Hne') as (key' & Hkey' & Hargs').
  exists key, key'. split; [done|]. split; [done|].
  rewrite Hargs, Hargs'.
  replace (cast field TEXT) with (if is_text_cast field then field else Cast field TEXT)
    by (by rewrite <- cast_text).
  destruct fields as [|first fields]; [done|].
  cbn [map app]. rewrite !join_with_cons.
  rewrite map_app, flat_map_app. done.
Qed.

Lemma surrogate_key_injective_witness :
  Forall (λ field, is_text_cast field = false) [col "a"]
  ∧ Forall (λ field, is_text_cast field = false) [col "a"; col "a"]
  ∧ [col "a"] ≠ [col "a"; col "a"]
  ∧ generate_surrogate_key__sha_256 [col "a"]
    ≠ generate_surrogate_key__sha_256 [col "a"; col "a"].
Proof.
  assert (Forall (λ field, is_text_cast field = false) [col "a"]) as H1
    by (repeat constructor).
  assert (Forall (λ field, is_text_cast field = false) [col "a"; col "a"]) as H2
    by (repeat constructor).
  split; [exact H1|]. split; [exact H2|]. split; [discriminate|].
  apply (surrogate_key_injective [col "a"] [col "a"; col "a"] H1 H2). discriminate.
Defined.

Lemma surrogate_key_argument_count_witness :
  [col "a"; col "b"; col "c"] ≠ []
  ∧ ∃ key,
      generate_surrogate_key__sha_256 [col "a"; col "b"; col "c"] = Return key
      ∧ length (concat_arguments key) = 2 * length [col "a"; col "b"; col "c"] - 1.
Proof.
  split; [discriminate|].
  apply (surrogate_key_argument_count [col "a"; col "b"; col "c"]). discriminate.
Defined.

Lemma surrogate_key_field_position_witness :
  [col "a"; Cast (col "b") TEXT] ≠ []
  ∧ ∃ key,
      generate_surrogate_key__sha_256 [col "a"; Cast (col "b") TEXT] = Return key
      ∧ ∀ i, concat_arguments key !! (2 * i)
             = (λ field, Func "COALESCE"
                           [cast field TEXT;
                            Literal "_sqlmesh_surrogate_key_null_" true])
               <$> [col "a"; Cast (col "b") TEXT] !! i.
Proof.
  split; [discriminate|].
  apply (surrogate_key_field_position [col "a"; Cast (col "b") TEXT]). discriminate.
Defined.

Lemma surrogate_key_separator_position_witness :
  1 + 1 < length [col "a"; col "b"; col "c"] ∧
  ∃ key,
    generate_surrogate_key__sha_256 [col "a"; col "b"; col "c"] = Return key
    ∧ concat_arguments key !! (2 * 1 + 1) = Some (Literal "|" true).
Proof.
  split; [cbn; lia|].
  apply (surrogate_key_separator_position [col "a"; col "b"; col "c"] 1). cbn; lia.
Defined.

Lemma surrogate_key_append_witness :
  [col "a"; col "b"] ≠ [] ∧
  ∃ key key',
    generate_surrogate_key__sha_256 [col "a"; col "b"] = Return key
    ∧ generate_surrogate_key__sha_256 ([col "a"; col "b"] ++ [col "c"]) = Return key'
    ∧ concat_arguments key'
      = concat_arguments key
        ++ [Literal "|" true;
            Func "COALESCE"
              [cast (col "c") TEXT; Literal "_sqlmesh_surrogate_key_null_" true]].
Proof.
  split; [discriminate|].
  apply (surrogate_key_append [col "a"; col "b"] (col "c")). discriminate.
Defined.

End SurrogateKeyArguments.
(** ** More on [star_v2] *)

Section StarCalls.

#[local] Set Warnings "-clear-no-such-hyp".

Context (sql : Expr → string) (normalize_identifiers : Expr → string → Expr).

Local Abbreviation star := (star_v2 sql normalize_identifiers).
Local Abbreviation exclusion := (exclusion_set normalize_identifiers).

Local Ltac run_checks :=
  unfold outcome, warnings, run, star_v2, when, logger_warning, well_shaped;
  unfold mbind, M_bind, mret, M_ret, raise, lift;
  cbn [truthy andb negb].

(** X6. A call raises exactly in these cases: a check that fails raises
    [SQLMeshError] with its message, the checks being made in the order
    alias, exclude, prefix, suffix, quote_identifiers, select_only; between
    the checks of exclude and of prefix, an [except_] that is not the empty
    tuple raises [NameError] for the unbound [logger]; a call that passes
    all of this raises what the schema lookup raises, unchanged.  No call
    raises the message of the second check of [exclude], the one under the
    test of [except_]. *)
Theorem star_v2_raises ev relation alias exclude prefix suffix quote_identifiers
    except_ select_only (e : Exception) :
  outcome (star ev relation alias exclude prefix suffix quote_identifiers except_ select_only)
    = Raise e
  ↔ (isinstance alias [CIdentifier; CColumn] = false
     ∧ e = SQLMeshError ("Invalid alias '" +:+ sql alias +:+ "'. Expected an identifier."))
  ∨ (isinstance alias [CIdentifier; CColumn] = true
     ∧ isinstance exclude [CArray; CTuple; CColumn] = false
     ∧ e = SQLMeshError
             ("Invalid exclude '" +:+ sql exclude +:+ "'. Expected an array or a column."))
  ∨ (isinstance alias [CIdentifier; CColumn] = true
     ∧ isinstance exclude [CArray; CTuple; CColumn] = true
     ∧ except_ ≠ Tuple []
     ∧ e = NameError "logger")
  ∨ (isinstance alias [CIdentifier; CColumn] = true
     ∧ isinstance exclude [CArray; CTuple; CColumn] = true
     ∧ except_ = Tuple []
     ∧ isinstance prefix [CLiteral] = false
     ∧ e = SQLMeshError ("Invalid prefix '" +:+ sql prefix +:+ "'. Expected a literal."))
  ∨ (isinstance alias [CIdentifier; CColumn] = true
     ∧ isinstance exclude [CArray; CTuple; CColumn] = true
     ∧ except_ = Tuple []
     ∧ isinstance prefix [CLiteral] = true
     ∧ isinstance suffix [CLiteral] = false
     ∧ e = SQLMeshError ("Invalid suffix '" +:+ sql suffix +:+ "'. Expected a literal."))
  ∨ (isinstance alias [CIdentifier; CColumn] = true
     ∧ isinstance exclude [CArray; CTuple; CColumn] = true
     ∧ except_ = Tuple []
     ∧ isinstance prefix [CLiteral] = true
     ∧ isinstance suffix [CLiteral] = true
     ∧ isinstance quote_identifiers [CBoolean] = false
     ∧ e = SQLMeshError
             ("Invalid quote_identifiers '" +:+ sql quote_identifiers
              +:+ "'. Expected a boolean."))
  ∨ (isinstance alias [CIdentifier; CColumn] = true
     ∧ isinstance exclude [CArray; CTuple; CColumn] = true
     ∧ except_ = Tuple []
     ∧ isinstance prefix [CLiteral] = true
     ∧ isinstance suffix [CLiteral] = true
     ∧ isinstance quote_identifiers [CBoolean] = true
     ∧ isinstance select_only [CBoolean] = false
     ∧ e = SQLMeshError
             ("Invalid select_only '" +:+ sql select_only +:+ "'. Expected a boolean."))
  ∨ (well_shaped alias exclude prefix suffix quote_identifiers select_only = true
     ∧ except_ = Tuple []
     ∧ columns_to_types ev relation = Raise e).
Proof.
  rewrite <- !(is_tuple__spec except_).
  run_checks.
  destruct (isinstance alias _); cbn [negb andb snd];
    [|split; [intros [= <-]; by left | intros H; decompose [and or] H; congruence]].
  destruct (isinstance exclude _); cbn [negb andb snd];
    [|split; [intros [= <-]; right; by left
             | intros H; decompose [and or] H; congruence]].
  destruct (is_tuple_ except_); cbn [negb andb snd];
    [|split; [intros [= <-]; do 2 right; by left
             | intros H; decompose [and or] H; congruence]].
  destruct (isinstance prefix _); cbn [negb andb snd];
    [|split; [intros [= <-]; do 3 right; by left
             | intros H; decompose [and or] H; congruence]].
  destruct (isinstance suffix _); cbn [negb andb snd];
    [|split; [intros [= <-]; do 4 right; by left
             | intros H; decompose [and or] H; congruence]].
  destruct (isinstance quote_identifiers _); cbn [negb andb snd];
    [|split; [intros [= <-]; do 5 right; by left
             | intros H; decompose [and or] H; congruence]].
  destruct (isinstance select_only _); cbn [negb andb snd];
    [|split; [intros [= <-]; do 6 right; by left
             | intros H; decompose [and or] H; congruence]].
  destruct (columns_to_types ev relation) as [columns|e0]; cbn [snd];
    (split; [intros H; do 7 right; split; [done|split; [done|congruence]]
            | intros H; decompose [and or] H; try congruence]).
Qed.

(** X14. A call returns exactly when its arguments pass the checks,
    [except_] is the empty tuple and the schema lookup returns; what it
    returns then is, for each retained column in order, the bare
    qualified column with the quoting of [quote_identifiers], whatever
    [select_only], the prefix, the suffix and the declared types are. *)
Theorem star_v2_returns_iff ev relation alias exclude prefix suffix quote_identifiers
    except_ select_only (out : list Expr) :
  outcome (star ev relation alias exclude prefix suffix quote_identifiers except_ select_only)
    = Return out
  ↔ well_shaped alias exclude prefix suffix quote_identifiers select_only = true
    ∧ except_ = Tuple []
    ∧ ∃ columns,
        columns_to_types ev relation = Return columns
        ∧ out = map (λ kv, Column (Identifier kv.1 (this_bool quote_identifiers))
                             (Some (Identifier (table_identifier_of alias relation)
                                      (this_bool quote_identifiers))))
                    (retained (exclusion ev exclude) columns).
Proof.
  rewrite <- is_tuple__spec. unfold outcome, run. split.
  - intros Hout.
    destruct (well_shaped alias exclude prefix suffix quote_identifiers select_only)
      eqn:Hshape.
    + rewrite star_v2_well_shaped in Hout by done. cbn [snd] in Hout.
      destruct (is_tuple_ except_); [|discriminate].
      destruct (columns_to_types ev relation) as [columns|e]; [|discriminate].
      split; [done|]. split; [done|]. exists columns. split; [done|].
      by injection Hout as <-.
    + destruct (star_v2_ill_shaped sql normalize_identifiers ev relation alias exclude
                  prefix suffix quote_identifiers except_ select_only [] Hshape)
        as [e Hraise].
      congruence.
  - intros (Hshape & Htuple & columns & Hcols & ->).
    rewrite star_v2_well_shaped by done. cbn [snd]. by rewrite Htuple, Hcols.
Qed.

Lemma exclusion_set_listed ev exclude exclude' :
  (∀ excluded, excluded ∈ listed exclude ↔ excluded ∈ listed exclude') →
  exclusion ev exclude = exclusion ev exclude'.
Proof.
  intros Hlisted. apply set_eq. intros x.
  rewrite !elem_of_exclusion_set.
  split; intros (excluded & Hin & ->); exists excluded; (split; [|done]);
    by apply Hlisted.
Qed.

(** The outcome of a call whose alias and exclusion pass their checks, by
    the exclusion set. *)
Lemma star_v2_by_exclusion ev relation alias exclude prefix suffix quote_identifiers
    except_ select_only log :
  isinstance exclude [CArray; CTuple; CColumn] = true →
  star ev relation alias exclude prefix suffix quote_identifiers except_ select_only log
  = (when (negb (isinstance alias [CIdentifier; CColumn]))
       (raise (SQLMeshError
          ("Invalid alias '" +:+ sql alias +:+ "'. Expected an identifier."))) ;;
     when (negb (is_tuple_ except_)) (logger_warning except_deprecation) ;;
     when (negb (isinstance prefix [CLiteral]))
       (raise (SQLMeshError
          ("Invalid prefix '" +:+ sql prefix +:+ "'. Expected a literal."))) ;;
     when (negb (isinstance suffix [CLiteral]))
       (raise (SQLMeshError
          ("Invalid suffix '" +:+ sql suffix +:+ "'. Expected a literal."))) ;;
     when (negb (isinstance quote_identifiers [CBoolean]))
       (raise (SQLMeshError
          ("Invalid quote_identifiers '" +:+ sql quote_identifiers
           +:+ "'. Expected a boolean."))) ;;
     when (negb (isinstance select_only [CBoolean]))
       (raise (SQLMeshError
          ("Invalid select_only '" +:+ sql select_only +:+ "'. Expected a boolean."))) ;;
     columns ← lift (columns_to_types ev relation) ;
     let columns_to_types := retained (exclusion ev exclude) columns in
     let table_identifier := table_identifier_of alias relation in
     let quoted := this_bool quote_identifiers in
     if truthy select_only then
       mret (bare_columns table_identifier quoted columns_to_types)
     else if columns_to_types_all_known columns_to_types then
       mret (cast_projections table_identifier quoted prefix suffix columns_to_types)
     else
       mret (aliased_columns table_identifier quoted prefix suffix columns_to_types)) log.
Proof.
  intros He. unfold star_v2, when, logger_warning. rewrite He.
  unfold mbind, M_bind, mret, M_ret, raise, lift.
  cbn [truthy andb negb].
  destruct (isinstance alias _); cbn [negb]; [|done].
  destruct (is_tuple_ except_); cbn [negb]; [|done].
  destruct (isinstance prefix _); cbn [negb]; [|done].
  destruct (isinstance suffix _); cbn [negb]; [|done].
  destruct (isinstance quote_identifiers _); cbn [negb]; [|done].
  destruct (isinstance select_only _); cbn [negb]; [|done].
  destruct (columns_to_types ev relation); reflexivity.
Qed.

(** X9. The exclusion argument counts through the nodes it lists only: a
    bare column is the tuple of that column, an array is the tuple of its
    elements, and neither the order nor the repetitions of the listed
    nodes change the log or the outcome of the call. *)
Theorem star_v2_exclude_listed ev relation alias exclude exclude' prefix suffix
    quote_identifiers except_ select_only :
  isinstance exclude [CArray; CTuple; CColumn] = true →
  isinstance exclude' [CArray; CTuple; CColumn] = true →
  (∀ excluded, excluded ∈ listed exclude ↔ excluded ∈ listed exclude') →
  run (star ev relation alias exclude prefix suffix quote_identifiers except_ select_only)
  = run (star ev relation alias exclude' prefix suffix quote_identifiers except_ select_only).
Proof.
  intros He He' Hlisted. unfold run.
  rewrite !star_v2_by_exclusion by done.
  by rewrite (exclusion_set_listed ev exclude exclude').
Qed.

Lemma retained_all (X : gset string) (columns : list (string * DataType)) :
  (∀ k, k ∈ map fst columns → k ∉ X) → retained X columns = columns.
Proof.
  unfold retained. induction columns as [|[k v] columns IH]; intros H; [done|].
  rewrite filter_cons_True by (apply H; cbn; left).
  f_equal. apply IH. intros k' Hk'. apply H. cbn. by right.
Qed.

(** X10. Excluding names that are not columns of the relation is not an
    error and changes nothing: the call returns what it returns with an
    empty exclusion. *)
Theorem star_v2_exclude_unknown ev relation alias exclude prefix suffix
    quote_identifiers except_ select_only columns :
  isinstance exclude [CArray; CTuple; CColumn] = true →
  columns_to_types ev relation = Return columns →
  (∀ excluded, excluded ∈ listed exclude →
     name (normalize_identifiers excluded (dialect ev)) ∉ map fst columns) →
  run (star ev relation alias exclude prefix suffix quote_identifiers except_ select_only)
  = run (star ev relation alias (Tuple []) prefix suffix quote_identifiers except_ select_only).
Proof.
  intros He Hcols Hunknown. unfold run.
  rewrite !star_v2_by_exclusion by done.
  unfold mbind, M_bind, lift. rewrite Hcols.
  rewrite !retained_all; [done| |].
  - intros k _. unfold exclusion_set, excluded_names_of. cbn. set_solver.
  - intros k Hk [excluded [Hin ->]]%elem_of_exclusion_set.
    by apply (Hunknown excluded).
Qed.

Lemma filter_sublist_weaker {A : Type} (P Q : A → Prop)
    `{∀ x, Decision (P x)} `{∀ x, Decision (Q x)} (l : list A) :
  (∀ x, P x → Q x) → filter P l `sublist_of` filter Q l.
Proof.
  intros HPQ. induction l as [|x l IH]; [done|].
  rewrite !filter_cons.
  destruct (decide (P x)) as [HP|HP], (decide (Q x)) as [HQ|HQ].
  - by apply sublist_skip.
  - destruct HQ. by apply HPQ.
  - by apply sublist_cons.
  - done.
Qed.

(** X11. Excluding more columns only removes projections: when the
    exclusion set of one call is included in that of another, the columns
    the second call emits are a sublist of those the first emits. *)
Theorem star_v2_exclude_more ev relation alias exclude exclude' prefix suffix
    quote_identifiers except_ select_only out out' :
  exclusion ev exclude ⊆ exclusion ev exclude' →
  outcome (star ev relation alias exclude prefix suffix quote_identifiers except_ select_only)
    = Return out →
  outcome (star ev relation alias exclude' prefix suffix quote_identifiers except_ select_only)
    = Return out' →
  map source_column out' `sublist_of` map source_column out.
Proof.
  intros Hsub Hout Hout'.
  apply star_v2_returns in Hout as (columns & Hcols & Hout).
  apply star_v2_returns in Hout' as (columns' & Hcols' & Hout').
  assert (columns' = columns) as -> by congruence.
  apply source_column_projections in Hout, Hout'.
  rewrite Hout, Hout', !retained_names.
  apply filter_sublist_weaker. set_solver.
Qed.

(** X12. When the names of the columns of the relation are distinct, as
    the keys of a dictionary are, no column is emitted twice. *)
Theorem star_v2_no_duplicates ev relation alias exclude prefix suffix
    quote_identifiers except_ select_only columns out :
  columns_to_types ev relation = Return columns →
  NoDup (map fst columns) →
  outcome (star ev relation alias exclude prefix suffix quote_identifiers except_ select_only)
    = Return out →
  NoDup (map source_column out) ∧ NoDup out.
Proof.
  intros Hcols Hnodup Hout.
  apply star_v2_returns in Hout as (columns' & Hcols' & Hout).
  assert (columns' = columns) as -> by congruence.
  apply source_column_projections in Hout.
  assert (NoDup (map source_column out)) as Hsrc.
  { rewrite Hout, retained_names. by apply NoDup_filter. }
  split; [done|]. by apply (NoDup_fmap_1 source_column).
Qed.

(** X13. For arguments that pass the checks, the outcome of a call
    depends neither on the value of [select_only] nor on the prefix and
    the suffix: the test [if select_only:] is on the node, and the bare
    columns are returned for [exp.false()] as for [exp.true()]. *)
Theorem star_v2_select_only_value_unused ev relation alias exclude prefix prefix'
    suffix suffix' quote_identifiers except_ select_only select_only' :
  well_shaped alias exclude prefix suffix quote_identifiers select_only = true →
  well_shaped alias exclude prefix' suffix' quote_identifiers select_only' = true →
  outcome (star ev relation alias exclude prefix suffix quote_identifiers except_ select_only)
  = outcome (star ev relation alias exclude prefix' suffix' quote_identifiers except_
               select_only').
Proof.
  intros Hshape Hshape'. unfold outcome, run.
  by rewrite !star_v2_well_shaped.
Qed.

End StarCalls.

Section MoreCalls.

#[local] Set Warnings "-clear-no-such-hyp".

Local Abbreviation star := (star_v2 sql_name normalize_id).

Lemma star_v2_exclude_listed_witness :
  isinstance (col "c") [CArray; CTuple; CColumn] = true
  ∧ isinstance (Array [col "c"; col "c"]) [CArray; CTuple; CColumn] = true
  ∧ (∀ excluded, excluded ∈ listed (col "c") ↔ excluded ∈ listed (Array [col "c"; col "c"]))
  ∧ run (star foo_schema foo bar (col "c") default_prefix default_suffix
           default_quote_identifiers default_except_ default_select_only)
    = run (star foo_schema foo bar (Array [col "c"; col "c"]) default_prefix default_suffix
             default_quote_identifiers default_except_ default_select_only).
Proof.
  assert (∀ excluded,
            excluded ∈ listed (col "c") ↔ excluded ∈ listed (Array [col "c"; col "c"]))
    as Hlisted by (intros excluded; cbn; set_solver).
  split; [reflexivity|]. split; [reflexivity|]. split; [exact Hlisted|].
  apply (star_v2_exclude_listed sql_name normalize_id foo_schema foo bar (col "c")
           (Array [col "c"; col "c"]) default_prefix default_suffix
           default_quote_identifiers default_except_ default_select_only);
    [reflexivity | reflexivity | exact Hlisted].
Defined.

Lemma star_v2_exclude_unknown_witness :
  isinstance (Array [col "zz"]) [CArray; CTuple; CColumn] = true
  ∧ columns_to_types foo_schema foo
    = Return [("a", TEXT); ("b", TEXT); ("c", TEXT); ("d", INT)]
  ∧ run (star foo_schema foo bar (Array [col "zz"]) default_prefix default_suffix
           default_quote_identifiers default_except_ default_select_only)
    = run (star foo_schema foo bar (Tuple []) default_prefix default_suffix
             default_quote_identifiers default_except_ default_select_only).
Proof.
  split; [reflexivity|]. split; [reflexivity|].
  apply (star_v2_exclude_unknown sql_name normalize_id foo_schema foo bar
           (Array [col "zz"]) default_prefix default_suffix default_quote_identifiers
           default_except_ default_select_only
           [("a", TEXT); ("b", TEXT); ("c", TEXT); ("d", INT)]);
    [reflexivity | reflexivity |].
  intros excluded Hin. cbn in Hin. apply list_elem_of_singleton in Hin as ->.
  apply (bool_decide_unpack _). vm_compute. exact I.
Defined.

Lemma star_v2_exclude_more_witness :
  exclusion_set normalize_id foo_schema (Tuple [col "c"])
    ⊆ exclusion_set normalize_id foo_schema (Tuple [col "c"; col "a"])
  ∧ map source_column [column "b" "bar" true; column "d" "bar" true]
    `sublist_of`
    map source_column [column "a" "bar" true; column "b" "bar" true; column "d" "bar" true].
Proof.
  assert (exclusion_set normalize_id foo_schema (Tuple [col "c"])
            ⊆ exclusion_set normalize_id foo_schema (Tuple [col "c"; col "a"])) as Hsub.
  { apply (bool_decide_unpack _). vm_compute. exact I. }
  split; [exact Hsub|].
  apply (star_v2_exclude_more sql_name normalize_id foo_schema foo bar
           (Tuple [col "c"]) (Tuple [col "c"; col "a"]) default_prefix default_suffix
           default_quote_identifiers default_except_ default_select_only);
    [exact Hsub | vm_compute; reflexivity | vm_compute; reflexivity].
Defined.

Lemma star_v2_no_duplicates_witness :
  columns_to_types foo_schema foo
    = Return [("a", TEXT); ("b", TEXT); ("c", TEXT); ("d", INT)]
  ∧ NoDup (map fst [("a", TEXT); ("b", TEXT); ("c", TEXT); ("d", INT)])
  ∧ NoDup (map source_column
             [column "a" "bar" true; column "b" "bar" true; column "d" "bar" true])
  ∧ NoDup [column "a" "bar" true; column "b" "bar" true; column "d" "bar" true].
Proof.
  assert (NoDup (map fst [("a", TEXT); ("b", TEXT); ("c", TEXT); ("d", INT)])) as Hnodup.
  { apply (bool_decide_unpack _). vm_compute. exact I. }
  split; [reflexivity|]. split; [exact Hnodup|].
  apply (star_v2_no_duplicates sql_name normalize_id foo_schema foo bar
           (Array [col "c"]) default_prefix default_suffix default_quote_identifiers
           default_except_ default_select_only
           [("a", TEXT); ("b", TEXT); ("c", TEXT); ("d", INT)]);
    [reflexivity | exact Hnodup | vm_compute; reflexivity].
Defined.

Lemma star_v2_select_only_value_unused_witness :
  well_shaped bar (Array [col "c"]) (Literal_string "baz_") default_suffix
    (Boolean true) (Boolean false) = true
  ∧ well_shaped bar (Array [col "c"]) default_prefix (Literal_string "_x")
      (Boolean true) (Boolean true) = true
  ∧ outcome (star foo_schema foo bar (Array [col "c"]) (Literal_string "baz_")
               default_suffix (Boolean true) default_except_ (Boolean false))
    = outcome (star foo_schema foo bar (Array [col "c"]) default_prefix
                 (Literal_string "_x") (Boolean true) default_except_ (Boolean true)).
Proof.
  split; [reflexivity|]. split; [reflexivity|].
  apply (star_v2_select_only_value_unused sql_name normalize_id foo_schema foo bar
           (Array [col "c"]) (Literal_string "baz_") default_prefix default_suffix
           (Literal_string "_x") (Boolean true) default_except_ (Boolean false)
           (Boolean true)); reflexivity.
Defined.

End MoreCalls.
